(** * reel_generator: the Gemini facade of [src/ai/gemini_util.py]

    A shallow embedding of the [Gemini] class: its constructor, the two
    completion methods, [describe_video] and the two text representations,
    together with the part of the Python run time they rest on (strings as
    sequences of code points, exceptions with their class ancestry,
    [base64.b64encode], the root logger, the file system and the wrapped
    [ChatGoogleGenerativeAI] client). *)

From Stdlib Require Import List Strings.String Strings.Ascii Strings.Byte NArith ZArith Bool Lia.
Import ListNotations.

Set Warnings "-register-all".

(* ===================================================================== *)
(** ** Python strings and bytes                                            *)
(* ===================================================================== *)

(** A Python [str] is a sequence of Unicode code points and [len] counts
    code points; a [bytes] object is a sequence of octets. *)
Definition codepoint := N.
Definition str := list codepoint.
Definition bytes := list byte.

(** A source literal, read one character per code point. *)
Definition lit (s : string) : str :=
  map N_of_ascii (list_ascii_of_string s).

(** [s * n] on strings. *)
Fixpoint str_mul (s : str) (n : nat) : str :=
  match n with
  | O => []
  | S k => s ++ str_mul s k
  end.

(** [s.startswith(p)]. *)
Fixpoint startswith (s p : str) : bool :=
  match p, s with
  | [], _ => true
  | _ :: _, [] => false
  | c :: p', d :: s' => N.eqb c d && startswith s' p'
  end.

(** [sub in s]: the substring test of Python's [in] operator. *)
Fixpoint str_in (sub s : str) : bool :=
  startswith s sub ||
  match s with
  | [] => false
  | _ :: s' => str_in sub s'
  end.

(** [s == t] on strings. *)
Fixpoint str_eqb (s t : str) : bool :=
  match s, t with
  | [], [] => true
  | c :: s', d :: t' => N.eqb c d && str_eqb s' t'
  | _, _ => false
  end.

(** The mask character of the text representations. *)
Definition mask : codepoint := N_of_ascii "*".

(* ===================================================================== *)
(** ** base64                                                              *)
(* ===================================================================== *)

Module base64.

Definition alphabet : bytes :=
  list_byte_of_string
    "ABCDEFGHIJKLMNOPQRSTUVWXYZabcdefghijklmnopqrstuvwxyz0123456789+/".

Definition pad : byte := "="%byte.

(** The character of a six-bit value. *)
Definition b64char (i : N) : byte := nth (N.to_nat i) alphabet pad.

(** The six-bit value of a character, when it is in the alphabet. *)
Fixpoint index_from (tbl : bytes) (k : N) (c : byte) : option N :=
  match tbl with
  | [] => None
  | d :: tbl' => if Byte.eqb c d then Some k else index_from tbl' (N.succ k) c
  end.

Definition b64index (c : byte) : option N := index_from alphabet 0 c.

(** The octet of a value, taken modulo 256. *)
Definition octet (n : N) : byte :=
  match Byte.of_N (n mod 256) with
  | Some b => b
  | None => x00
  end.

(** The 24-bit group of three octets and of four six-bit values. *)
Definition group3 (a b c : byte) : N :=
  Byte.to_N a * 65536 + Byte.to_N b * 256 + Byte.to_N c.

Definition group4 (i0 i1 i2 i3 : N) : N :=
  i0 * 262144 + i1 * 4096 + i2 * 64 + i3.

Definition sextet (g : N) (k : N) : N := (g / 64 ^ (3 - k)) mod 64.

(** [base64.b64encode]: three octets give four characters; a final group
    of one or two octets is zero-filled and padded with [=]. *)
Fixpoint b64encode (data : bytes) : bytes :=
  match data with
  | [] => []
  | [a] =>
      let g := group3 a x00 x00 in
      [b64char (sextet g 0); b64char (sextet g 1); pad; pad]
  | [a; b] =>
      let g := group3 a b x00 in
      [b64char (sextet g 0); b64char (sextet g 1); b64char (sextet g 2); pad]
  | a :: b :: c :: rest =>
      let g := group3 a b c in
      b64char (sextet g 0) :: b64char (sextet g 1) ::
      b64char (sextet g 2) :: b64char (sextet g 3) :: b64encode rest
  end.

Definition is_pad (c : byte) : bool := Byte.eqb c pad.

Definition is_nil (l : bytes) : bool :=
  match l with [] => true | _ => false end.

(** [base64.b64decode] on canonical input (RFC 4648, section 4): groups
    of four alphabet characters, padding only in the last group.  [None]
    stands for [binascii.Error]. *)
Fixpoint b64decode (s : bytes) : option bytes :=
  match s with
  | [] => Some []
  | c0 :: c1 :: c2 :: c3 :: rest =>
      match b64index c0, b64index c1 with
      | Some i0, Some i1 =>
          if is_pad c2 then
            if is_pad c3 && is_nil rest
            then Some [octet (group4 i0 i1 0 0 / 65536)]
            else None
          else
            match b64index c2 with
            | Some i2 =>
                if is_pad c3 then
                  if is_nil rest
                  then let g := group4 i0 i1 i2 0 in
                       Some [octet (g / 65536); octet (g / 256)]
                  else None
                else
                  match b64index c3, b64decode rest with
                  | Some i3, Some tail =>
                      let g := group4 i0 i1 i2 i3 in
                      Some (octet (g / 65536) :: octet (g / 256) ::
                            octet g :: tail)
                  | _, _ => None
                  end
            | None => None
            end
      | _, _ => None
      end
  | _ => None
  end.

End base64.

(* ===================================================================== *)
(** ** UTF-8 and ASCII codecs                                              *)
(* ===================================================================== *)

(** A continuation octet [lo <= b <= hi], as its value. *)
Definition in_range (b : byte) (lo hi : N) : bool :=
  (lo <=? Byte.to_N b)%N && (Byte.to_N b <=? hi)%N.

Definition low6 (b : byte) : N := (Byte.to_N b - 128)%N.

(** [bytes.decode("utf-8")] with strict error handling: well-formed
    sequences of one to four octets (no overlong forms, no surrogates,
    nothing above U+10FFFF).  [None] stands for [UnicodeDecodeError]. *)
Fixpoint utf8_decode (b : bytes) : option str :=
  match b with
  | [] => Some []
  | b0 :: r0 =>
      let n0 := Byte.to_N b0 in
      if (n0 <? 128)%N then option_map (cons n0) (utf8_decode r0)
      else if (n0 <? 194)%N then None
      else if (n0 <? 224)%N then
        match r0 with
        | b1 :: r1 =>
            if in_range b1 128 191
            then option_map (cons ((n0 - 192) * 64 + low6 b1)%N) (utf8_decode r1)
            else None
        | _ => None
        end
      else if (n0 <? 240)%N then
        match r0 with
        | b1 :: b2 :: r2 =>
            if in_range b1 (if (n0 =? 224)%N then 160 else 128)
                           (if (n0 =? 237)%N then 159 else 191)
               && in_range b2 128 191
            then option_map
                   (cons ((n0 - 224) * 4096 + low6 b1 * 64 + low6 b2)%N)
                   (utf8_decode r2)
            else None
        | _ => None
        end
      else if (n0 <? 245)%N then
        match r0 with
        | b1 :: b2 :: b3 :: r3 =>
            if in_range b1 (if (n0 =? 240)%N then 144 else 128)
                           (if (n0 =? 244)%N then 143 else 191)
               && in_range b2 128 191 && in_range b3 128 191
            then option_map
                   (cons ((n0 - 240) * 262144 + low6 b1 * 4096 +
                          low6 b2 * 64 + low6 b3)%N)
                   (utf8_decode r3)
            else None
        | _ => None
        end
      else None
  end.

(** [str.encode("ascii")]; [None] stands for [UnicodeEncodeError]. *)
Fixpoint ascii_encode (s : str) : option bytes :=
  match s with
  | [] => Some []
  | c :: s' =>
      if (c <? 128)%N then
        match Byte.of_N c, ascii_encode s' with
        | Some b, Some r => Some (b :: r)
        | _, _ => None
        end
      else None
  end.

(** [base64.b64decode] applied to a [str]: the text is first encoded as
    ASCII, then decoded. *)
Definition b64decode_str (s : str) : option bytes :=
  match ascii_encode s with
  | Some b => base64.b64decode b
  | None => None
  end.

(* ===================================================================== *)
(** ** Python values, exceptions and outcomes                              *)
(* ===================================================================== *)

(** The values that travel through the facade: messages, schemas and
    responses.  A dict keeps its insertion order; an object is its class
    name with its attributes. *)
Inductive pyval : Type :=
| PyNone
| PyBool (b : bool)
| PyInt (z : Z)
| PyStr (s : str)
| PyList (items : list pyval)
| PyDict (entries : list (str * pyval))
| PyObject (cls : string) (attrs : list (string * pyval)).

(** A raised object: the names of the classes on its method resolution
    order, most derived first, and its [str()]. *)
Record PyExc : Type := mkExc {
  exc_mro : list string;
  exc_str : str
}.

(** [isinstance(e, cls)], the test an [except cls] clause makes. *)
Definition isinstance (e : PyExc) (cls : string) : bool :=
  existsb (String.eqb cls) (exc_mro e).

Definition mro_Exception : list string :=
  ["Exception"; "BaseException"; "object"]%string.

Definition FileNotFoundError (msg : str) : PyExc :=
  mkExc ("FileNotFoundError" :: "OSError" :: mro_Exception)%string msg.

Definition AttributeError (msg : str) : PyExc :=
  mkExc ("AttributeError" :: mro_Exception)%string msg.

Definition UnicodeDecodeError (msg : str) : PyExc :=
  mkExc ("UnicodeDecodeError" :: "UnicodeError" :: "ValueError" ::
         mro_Exception)%string msg.

Definition ValueError (msg : str) : PyExc :=
  mkExc ("ValueError" :: mro_Exception)%string msg.

Definition KeyboardInterrupt : PyExc :=
  mkExc ["KeyboardInterrupt"; "BaseException"; "object"]%string [].

(** What a call does: it returns a value or raises. *)
Inductive Outcome (A : Type) : Type :=
| Returned (a : A)
| Raised (e : PyExc).

Arguments Returned {A} a.
Arguments Raised {A} e.

(** [logging]: the root logger is configured at level INFO, so records of
    both levels used by the module are emitted. *)
Inductive Level : Type := INFO | ERROR.

Definition LogRecord : Type := (Level * str)%type.

(** [obj.name]: the attribute of an object; every other value of the model
    has no attribute of the names used here. *)
Fixpoint assoc (name : string) (attrs : list (string * pyval)) : option pyval :=
  match attrs with
  | [] => None
  | (k, v) :: rest => if String.eqb name k then Some v else assoc name rest
  end.

Definition type_name (obj : pyval) : string :=
  match obj with
  | PyNone => "NoneType"
  | PyBool _ => "bool"
  | PyInt _ => "int"
  | PyStr _ => "str"
  | PyList _ => "list"
  | PyDict _ => "dict"
  | PyObject cls _ => cls
  end.

Definition no_attribute (obj : pyval) (name : string) : PyExc :=
  AttributeError
    (lit "'" ++ lit (type_name obj) ++ lit "' object has no attribute '" ++
     lit name ++ lit "'").

Definition lookup_attr (obj : pyval) (name : string) : Outcome pyval :=
  match obj with
  | PyObject _ attrs =>
      match assoc name attrs with
      | Some v => Returned v
      | None => Raised (no_attribute obj name)
      end
  | _ => Raised (no_attribute obj name)
  end.

(* ===================================================================== *)
(** ** The wrapped client                                                  *)
(* ===================================================================== *)

(** The keyword arguments [ChatGoogleGenerativeAI] is constructed with;
    [None] is Python's [None]. *)
Record ChatGoogleGenerativeAI : Type := mkChat {
  chat_model : str;
  chat_api_key : str;
  temperature : Z;
  max_tokens : option Z;
  timeout : option Z;
  max_retries : Z
}.

(** What [invoke] can be called on: the client itself, or the runnable
    [with_structured_output] derives from it. *)
Inductive Runnable : Type :=
| Chat (client : ChatGoogleGenerativeAI)
| Structured (client : ChatGoogleGenerativeAI) (structure : pyval).

(** What the program does that can be seen from outside, in the order it
    does it: a record handed to the root logger, an invocation of a
    runnable. *)
Inductive Event : Type :=
| Logged (record : LogRecord)
| Invoked (r : Runnable) (messages : pyval).

(** An instance of the class: its three attributes. *)
Record Gemini : Type := mkGemini {
  model : str;
  api_key : str;
  llm : ChatGoogleGenerativeAI
}.


(* ===================================================================== *)
(** ** The world and the monad of method bodies                            *)
(* ===================================================================== *)

Section Facade.

(** The model provider behind the client: its state, and what an
    invocation of a runnable on a message sequence does there. *)
Variable Ext : Type.
Variable provider : Runnable -> pyval -> Ext -> Outcome pyval * Ext.

(** The library's check of a schema when it is bound to a client: the
    exception [with_structured_output] raises for a schema it does not
    accept, [None] for one it accepts. *)
Variable schema_error : ChatGoogleGenerativeAI -> pyval -> option PyExc.

(** Everything outside the instance: the file system ([open] followed by
    [read] of a path), the provider, the records the root logger has
    emitted, the invocations made, the clients constructed, and the
    logging and invoking in the order it happened. *)
Record World : Type := mkWorld {
  fs : str -> Outcome bytes;
  ext : Ext;
  log : list LogRecord;
  invoked : list (Runnable * pyval);
  built : list ChatGoogleGenerativeAI;
  events : list Event
}.

(** A method runs on [self] and the world. *)
Record State : Type := mkState {
  self : Gemini;
  env : World
}.

Definition M (A : Type) : Type := State -> Outcome A * State.

Definition ret {A : Type} (a : A) : M A := fun st => (Returned a, st).

Definition raise {A : Type} (e : PyExc) : M A := fun st => (Raised e, st).

Definition bind {A B : Type} (m : M A) (k : A -> M B) : M B :=
  fun st =>
    match m st with
    | (Returned a, st') => k a st'
    | (Raised e, st') => (Raised e, st')
    end.

Notation "x <- m ;; k" := (bind m (fun x => k))
  (at level 61, m at next level, right associativity).
Notation "m ;; k" := (bind m (fun _ => k))
  (at level 61, right associativity).

(** [try: body except cls as e: handler e]. *)
Definition try_except {A : Type}
    (body : M A) (cls : string) (handler : PyExc -> M A) : M A :=
  fun st =>
    match body st with
    | (Returned a, st') => (Returned a, st')
    | (Raised e, st') =>
        if isinstance e cls then handler e st' else (Raised e, st')
    end.

Definition get_self : M Gemini := fun st => (Returned (self st), st).

Definition lift {A : Type} (o : Outcome A) : M A := fun st => (o, st).

Definition emit (lvl : Level) (msg : str) : M unit :=
  fun st =>
    let w := env st in
    (Returned tt,
     mkState (self st)
       (mkWorld (fs w) (ext w) (log w ++ [(lvl, msg)]) (invoked w) (built w)
          (events w ++ [Logged (lvl, msg)]))).

Definition logging_info : str -> M unit := emit INFO.
Definition logging_error : str -> M unit := emit ERROR.

(** [with open(path, "rb") as f: f.read()]. *)
Definition open_rb_read (path : str) : M bytes :=
  fun st => (fs (env st) path, st).

(** [b.decode("utf-8")]. *)
Definition decode_utf8 (b : bytes) : M str :=
  match utf8_decode b with
  | Some s => ret s
  | None => raise (UnicodeDecodeError
                     (lit "'utf-8' codec can't decode bytes"))
  end.

(** [runnable.invoke(messages)]: one exchange with the provider. *)
Definition invoke (r : Runnable) (messages : pyval) : M pyval :=
  fun st =>
    let w := env st in
    let '(o, x) := provider r messages (ext w) in
    (o, mkState (self st)
          (mkWorld (fs w) x (log w) (invoked w ++ [(r, messages)]) (built w)
             (events w ++ [Invoked r messages]))).

(** [llm.with_structured_output(structure)]: a new runnable, the receiver
    left as it is, or the library's exception for the schema. *)
Definition with_structured_output
    (client : ChatGoogleGenerativeAI) (structure : pyval) : M Runnable :=
  match schema_error client structure with
  | Some e => raise e
  | None => ret (Structured client structure)
  end.

Definition getattr (obj : pyval) (name : string) : M pyval :=
  lift (lookup_attr obj name).

(* ===================================================================== *)
(** ** class Gemini                                                        *)
(* ===================================================================== *)

Definition default_model : str := lit "models/gemini-1.5-flash".

(** [Gemini(api_key, model)]; [model = None] is a call that leaves the
    second argument out. *)
Definition __init__ (api_key : str) (model : option str) (w : World) : State :=
  let self_model := match model with Some m => m | None => default_model end in
  let self_api_key := api_key in
  let self_llm :=
    {| chat_model := self_model;
       chat_api_key := self_api_key;
       temperature := 0;
       max_tokens := None;
       timeout := None;
       max_retries := 2 |} in
  mkState (mkGemini self_model self_api_key self_llm)
    (mkWorld (fs w) (ext w) (log w) (invoked w) (built w ++ [self_llm])
       (events w)).

Definition call_llm (messages : pyval) (stream : bool) : M pyval :=
  logging_info (lit "Caling LLM...........................") ;;
  s <- get_self ;;
  response <- invoke (Chat (llm s)) messages ;;
  logging_info (lit "Response Genereted from LLM") ;;
  ret response.

Definition call_llm_json (messages structure : pyval) : M pyval :=
  logging_info (lit "Caling LLM...........................") ;;
  s <- get_self ;;
  structured_llm <- with_structured_output (llm s) structure ;;
  response <- invoke structured_llm messages ;;
  logging_info (lit "Response Genereted from LLM in strcutured json format") ;;
  ret response.

(** The message list [describe_video] builds. *)
Definition video_messages (encoded_video : str) : pyval :=
  PyList
    [PyDict
       [(lit "role", PyStr (lit "user"));
        (lit "content",
         PyList
           [PyDict [(lit "type", PyStr (lit "text"));
                    (lit "text", PyStr (lit "Describe this video."))];
            PyDict [(lit "type", PyStr (lit "video"));
                    (lit "raw_bytes", PyStr encoded_video)]])]].

Definition describe_video (video_path : str) : M pyval :=
  try_except
    (data <- open_rb_read video_path ;;
     encoded_video <- decode_utf8 (base64.b64encode data) ;;
     let messages := video_messages encoded_video in
     response <- call_llm messages false ;;
     getattr response "content")
    "Exception"
    (fun e =>
       logging_error (lit "Error describing video: " ++ exc_str e) ;;
       ret PyNone).

Definition __str__ : M str :=
  s <- get_self ;;
  ret (lit "Gemini(model=" ++ model s ++ lit ", api_key=" ++
       str_mul (lit "*") (List.length (api_key s)) ++ lit ")").

Definition __repr__ : M str :=
  s <- get_self ;;
  ret (lit "Gemini(model=" ++ model s ++ lit ", api_key=" ++
       str_mul (lit "*") (List.length (api_key s)) ++ lit ")").

(* ===================================================================== *)
(** ** Vocabulary of the statements                                        *)
(* ===================================================================== *)

Definition calling : LogRecord := (INFO, lit "Caling LLM...........................").
Definition generated : LogRecord := (INFO, lit "Response Genereted from LLM").
Definition generated_json : LogRecord :=
  (INFO, lit "Response Genereted from LLM in strcutured json format").
Definition describing_failed (e : PyExc) : LogRecord :=
  (ERROR, lit "Error describing video: " ++ exc_str e).

(** The state with further records in the log. *)
Definition logged (st : State) (records : list LogRecord) : State :=
  mkState (self st)
    (mkWorld (fs (env st)) (ext (env st)) (log (env st) ++ records)
       (invoked (env st)) (built (env st))
       (events (env st) ++ map Logged records)).

(** The state one invocation leaves: the provider in state [x], the
    invocation recorded, the records [before] logged ahead of it and the
    records [after] behind it. *)
Definition after_invoke (st : State) (r : Runnable) (messages : pyval)
    (x : Ext) (before after : list LogRecord) : State :=
  mkState (self st)
    (mkWorld (fs (env st)) x (log (env st) ++ before ++ after)
       (invoked (env st) ++ [(r, messages)]) (built (env st))
       (events (env st) ++
        map Logged before ++ [Invoked r messages] ++ map Logged after)).

(** The operations of an instance, and the state a sequence of them
    leaves. *)
Inductive Op : Type :=
| OpCallLlm (messages : pyval) (stream : bool)
| OpCallLlmJson (messages structure : pyval)
| OpDescribeVideo (video_path : str)
| OpStr
| OpRepr.

Definition run_op (op : Op) (st : State) : State :=
  match op with
  | OpCallLlm messages stream => snd (call_llm messages stream st)
  | OpCallLlmJson messages structure => snd (call_llm_json messages structure st)
  | OpDescribeVideo video_path => snd (describe_video video_path st)
  | OpStr => snd (__str__ st)
  | OpRepr => snd (__repr__ st)
  end.

Definition run_ops (ops : list Op) (st : State) : State :=
  fold_left (fun s op => run_op op s) ops st.

(** A step of [describe_video] raises [e] from state [st]: reading the
    file, encoding its content, the model call, or taking the content of
    the response. *)
Inductive step_raises (video_path : str) (st : State) (e : PyExc) : Prop :=
| raises_read :
    fs (env st) video_path = Raised e ->
    step_raises video_path st e
| raises_encode (data : bytes) :
    fs (env st) video_path = Returned data ->
    fst (decode_utf8 (base64.b64encode data) st) = Raised e ->
    step_raises video_path st e
| raises_invoke (data : bytes) (encoded : str) :
    fs (env st) video_path = Returned data ->
    utf8_decode (base64.b64encode data) = Some encoded ->
    fst (provider (Chat (llm (self st))) (video_messages encoded)
           (ext (env st))) = Raised e ->
    step_raises video_path st e
| raises_content (data : bytes) (encoded : str) (response : pyval) :
    fs (env st) video_path = Returned data ->
    utf8_decode (base64.b64encode data) = Some encoded ->
    fst (provider (Chat (llm (self st))) (video_messages encoded)
           (ext (env st))) = Returned response ->
    lookup_attr response "content" = Raised e ->
    step_raises video_path st e.

End Facade.

Arguments fs {Ext} w path.
Arguments ext {Ext} w.
Arguments log {Ext} w.
Arguments invoked {Ext} w.
Arguments built {Ext} w.
Arguments events {Ext} w.
Arguments mkWorld {Ext} fs ext log invoked built events.
Arguments self {Ext} s.
Arguments env {Ext} s.
Arguments mkState {Ext} self env.
Arguments ret {Ext A} a _.
Arguments raise {Ext A} e _.
Arguments bind {Ext A B} m k _.
Arguments try_except {Ext A} body cls handler _.
Arguments get_self {Ext} _.
Arguments lift {Ext A} o _.
Arguments emit {Ext} lvl msg _.
Arguments logging_info {Ext} _ _.
Arguments logging_error {Ext} _ _.
Arguments open_rb_read {Ext} path _.
Arguments decode_utf8 {Ext} b.
Arguments invoke {Ext} provider r messages _.
Arguments with_structured_output {Ext} schema_error client structure _.
Arguments getattr {Ext} obj name.
Arguments __init__ {Ext} api_key model w.
Arguments call_llm {Ext} provider messages stream _.
Arguments call_llm_json {Ext} provider schema_error messages structure _.
Arguments describe_video {Ext} provider video_path _.
Arguments __str__ {Ext} _.
Arguments __repr__ {Ext} _.
Arguments logged {Ext} st records.
Arguments after_invoke {Ext} st r messages x before after.
Arguments run_op {Ext} provider schema_error op st.
Arguments run_ops {Ext} provider schema_error ops st.
Arguments step_raises {Ext} provider video_path st e.

(* ===================================================================== *)
(** ** Worlds used as concrete inputs                                      *)
(* ===================================================================== *)

Module Demo.

(** A provider that answers every invocation with an [AIMessage] whose
    content is a fixed text, and counts the invocations. *)
Definition answering (r : Runnable) (messages : pyval) (n : nat)
    : Outcome pyval * nat :=
  (Returned (PyObject "AIMessage" [("content"%string, PyStr (lit "A cat."))]),
   S n).

(** A provider whose call is interrupted from the keyboard. *)
Definition interrupted (r : Runnable) (messages : pyval) (n : nat)
    : Outcome pyval * nat :=
  (Raised KeyboardInterrupt, n).

(** A provider whose transport fails. *)
Definition ConnectionError : PyExc :=
  mkExc ("ConnectionError" :: "OSError" :: mro_Exception)%string
        (lit "connection refused").

Definition failing (r : Runnable) (messages : pyval) (n : nat)
    : Outcome pyval * nat :=
  (Raised ConnectionError, n).

(** A file system with the single file [clip.mp4]. *)
Definition clip : bytes := list_byte_of_string "Man!".

Definition disk (path : str) : Outcome bytes :=
  if str_eqb path (lit "clip.mp4")
  then Returned clip
  else Raised (FileNotFoundError
                 (lit "[Errno 2] No such file or directory")).

Definition world0 : World nat := mkWorld disk 0%nat [] [] [] [].

(** A schema check that accepts dicts and classes and rejects [None],
    booleans, numbers, strings and lists. *)
Definition strict (client : ChatGoogleGenerativeAI) (structure : pyval)
    : option PyExc :=
  match structure with
  | PyDict _ | PyObject _ _ => None
  | _ => Some (ValueError (lit "unsupported schema"))
  end.

Definition gemini0 : State nat := __init__ (lit "key") None world0.

Definition gemini1 : State nat := __init__ (lit "AIza-secret") None world0.

(** A provider that answers with a message whose content is [None]. *)
Definition silent (r : Runnable) (messages : pyval) (n : nat)
    : Outcome pyval * nat :=
  (Returned (PyObject "AIMessage" [("content"%string, PyNone)]), S n).

(** A provider that answers with a bare string, which has no [content]. *)
Definition bare (r : Runnable) (messages : pyval) (n : nat)
    : Outcome pyval * nat :=
  (Returned (PyStr (lit "A cat.")), S n).

End Demo.

(* ===================================================================== *)
(** ** Further vocabulary                                                  *)
(* ===================================================================== *)

(** The client a runnable was derived from. *)
Definition client_of (r : Runnable) : ChatGoogleGenerativeAI :=
  match r with
  | Chat client => client
  | Structured client _ => client
  end.

(** The text [describe_video] sends as [raw_bytes] for a file content. *)
Definition payload_of (data : bytes) : str :=
  map Byte.to_N (base64.b64encode data).


(* ===================================================================== *)
(** ** base64: decoding inverts encoding                                  *)
(* ===================================================================== *)

Module base64_facts.
Import base64.

Lemma b64char_nat (n : nat) :
  (n < 64)%nat ->
  b64index (b64char (N.of_nat n)) = Some (N.of_nat n) /\
  is_pad (b64char (N.of_nat n)) = false /\
  (Byte.to_N (b64char (N.of_nat n)) < 128)%N.
Proof.
  intros H.
  do 64 (destruct n as [|n]; [vm_compute; repeat split; reflexivity|]).
  lia.
Qed.

Lemma b64index_b64char (i : N) :
  (i < 64)%N -> b64index (b64char i) = Some i.
Proof.
  intros H. rewrite <- (N2Nat.id i). apply b64char_nat. lia.
Qed.

Lemma b64char_not_pad (i : N) :
  (i < 64)%N -> is_pad (b64char i) = false.
Proof.
  intros H. rewrite <- (N2Nat.id i). apply b64char_nat. lia.
Qed.

Lemma sextet_lt (g k : N) : (sextet g k < 64)%N.
Proof. unfold sextet. apply N.mod_lt. discriminate. Qed.

Lemma octet_to_N (a : byte) (q : N) :
  octet (q * 256 + Byte.to_N a) = a.
Proof.
  unfold octet.
  pose proof (Byte.to_N_bounded a) as Hb.
  replace ((q * 256 + Byte.to_N a) mod 256)%N with (Byte.to_N a).
  - now rewrite Byte.of_to_N.
  - symmetry. rewrite N.add_comm, N.Div0.mod_add. apply N.mod_small. lia.
Qed.

Lemma group4_sextets (g : N) :
  (g < 16777216)%N ->
  group4 (sextet g 0) (sextet g 1) (sextet g 2) (sextet g 3) = g.
Proof.
  intros H. unfold group4, sextet.
  change (64 ^ (3 - 0))%N with 262144%N.
  change (64 ^ (3 - 1))%N with 4096%N.
  change (64 ^ (3 - 2))%N with 64%N.
  change (64 ^ (3 - 3))%N with 1%N.
  rewrite N.div_1_r.
  zify. Z.to_euclidean_division_equations. lia.
Qed.



Lemma list_ind3 {A : Type} (P : list A -> Prop) :
  P [] -> (forall a, P [a]) -> (forall a b, P [a; b]) ->
  (forall a b c l, P l -> P (a :: b :: c :: l)) ->
  forall l, P l.
Proof.
  intros H0 H1 H2 H3.
  fix IH 1.
  intros [|a [|b [|c l]]]; [exact H0 | apply H1 | apply H2 | apply H3, IH].
Qed.

Lemma b64decode_group (i0 i1 i2 i3 : N) (rest tail : bytes) :
  (i0 < 64)%N -> (i1 < 64)%N -> (i2 < 64)%N -> (i3 < 64)%N ->
  b64decode rest = Some tail ->
  b64decode (b64char i0 :: b64char i1 :: b64char i2 :: b64char i3 :: rest) =
  let g := group4 i0 i1 i2 i3 in
  Some (octet (g / 65536) :: octet (g / 256) :: octet g :: tail).
Proof.
  intros H0 H1 H2 H3 Hr. cbn [b64decode].
  rewrite !b64index_b64char, !b64char_not_pad, Hr by assumption.
  reflexivity.
Qed.

Lemma b64decode_pad1 (i0 i1 i2 : N) :
  (i0 < 64)%N -> (i1 < 64)%N -> (i2 < 64)%N ->
  b64decode [b64char i0; b64char i1; b64char i2; pad] =
  let g := group4 i0 i1 i2 0 in
  Some [octet (g / 65536); octet (g / 256)].
Proof.
  intros H0 H1 H2. cbn [b64decode].
  rewrite !b64index_b64char, !b64char_not_pad by assumption.
  reflexivity.
Qed.

Lemma b64decode_pad2 (i0 i1 : N) :
  (i0 < 64)%N -> (i1 < 64)%N ->
  b64decode [b64char i0; b64char i1; pad; pad] =
  Some [octet (group4 i0 i1 0 0 / 65536)].
Proof.
  intros H0 H1. cbn [b64decode].
  rewrite !b64index_b64char by assumption.
  reflexivity.
Qed.

Lemma group3_lt (a b c : byte) : (group3 a b c < 16777216)%N.
Proof.
  unfold group3.
  pose proof (Byte.to_N_bounded a). pose proof (Byte.to_N_bounded b).
  pose proof (Byte.to_N_bounded c). lia.
Qed.

Lemma group3_octets (a b c : byte) :
  let g := group3 a b c in
  octet (g / 65536) = a /\ octet (g / 256) = b /\ octet g = c.
Proof.
  intros g. unfold g, group3.
  pose proof (Byte.to_N_bounded a) as Ha. pose proof (Byte.to_N_bounded b) as Hb.
  pose proof (Byte.to_N_bounded c) as Hc.
  repeat split.
  - replace ((Byte.to_N a * 65536 + Byte.to_N b * 256 + Byte.to_N c) / 65536)%N
      with (0 * 256 + Byte.to_N a)%N.
    + apply octet_to_N.
    + zify. Z.to_euclidean_division_equations. lia.
  - replace ((Byte.to_N a * 65536 + Byte.to_N b * 256 + Byte.to_N c) / 256)%N
      with (Byte.to_N a * 256 + Byte.to_N b)%N.
    + apply octet_to_N.
    + zify. Z.to_euclidean_division_equations. lia.
  - replace (Byte.to_N a * 65536 + Byte.to_N b * 256 + Byte.to_N c)%N
      with ((Byte.to_N a * 256 + Byte.to_N b) * 256 + Byte.to_N c)%N by lia.
    apply octet_to_N.
Qed.

Lemma sextet_low_zero1 (a : byte) :
  sextet (group3 a x00 x00) 2 = 0%N /\ sextet (group3 a x00 x00) 3 = 0%N.
Proof.
  unfold sextet, group3. change (Byte.to_N x00) with 0%N.
  change (64 ^ (3 - 2))%N with 64%N. change (64 ^ (3 - 3))%N with 1%N.
  rewrite N.div_1_r. split; zify; Z.to_euclidean_division_equations; lia.
Qed.

Lemma sextet_low_zero2 (a b : byte) : sextet (group3 a b x00) 3 = 0%N.
Proof.
  unfold sextet, group3. change (Byte.to_N x00) with 0%N.
  change (64 ^ (3 - 3))%N with 1%N.
  rewrite N.div_1_r. zify; Z.to_euclidean_division_equations; lia.
Qed.

Lemma group4_one (a : byte) :
  let g := group3 a x00 x00 in
  group4 (sextet g 0) (sextet g 1) 0 0 = g.
Proof.
  intros g. destruct (sextet_low_zero1 a) as [E2 E3].
  transitivity (group4 (sextet g 0) (sextet g 1) (sextet g 2) (sextet g 3)).
  - unfold g. now rewrite E2, E3.
  - apply group4_sextets, group3_lt.
Qed.

Lemma group4_two (a b : byte) :
  let g := group3 a b x00 in
  group4 (sextet g 0) (sextet g 1) (sextet g 2) 0 = g.
Proof.
  intros g.
  transitivity (group4 (sextet g 0) (sextet g 1) (sextet g 2) (sextet g 3)).
  - unfold g. now rewrite sextet_low_zero2.
  - apply group4_sextets, group3_lt.
Qed.

Theorem b64decode_b64encode (data : bytes) :
  b64decode (b64encode data) = Some data.
Proof.
  induction data as [|a|a b|a b c rest IH] using list_ind3.
  - reflexivity.
  - cbn [b64encode]. rewrite b64decode_pad2 by apply sextet_lt.
    rewrite group4_one.
    now destruct (group3_octets a x00 x00) as (-> & _ & _).
  - cbn [b64encode]. rewrite b64decode_pad1 by apply sextet_lt.
    cbv zeta. rewrite group4_two.
    now destruct (group3_octets a b x00) as (-> & -> & _).
  - cbn [b64encode]. rewrite b64decode_group with (tail := rest) by (apply sextet_lt || exact IH).
    cbv zeta. rewrite group4_sextets by apply group3_lt.
    now destruct (group3_octets a b c) as (-> & -> & ->).
Qed.

Lemma b64encode_ascii (data : bytes) :
  Forall (fun c => (Byte.to_N c < 128)%N) (b64encode data).
Proof.
  assert (Hc : forall i, (i < 64)%N -> (Byte.to_N (b64char i) < 128)%N).
  { intros i H. rewrite <- (N2Nat.id i). apply b64char_nat. lia. }
  assert (Hp : (Byte.to_N pad < 128)%N) by (vm_compute; reflexivity).
  induction data as [|a|a b|a b c rest IH] using list_ind3; cbn [b64encode];
    repeat constructor; try apply Hc; try apply sextet_lt; try exact Hp.
  exact IH.
Qed.
End base64_facts.

(* ===================================================================== *)
(** ** Codecs on the base64 alphabet                                       *)
(* ===================================================================== *)

Lemma utf8_decode_ascii (b : bytes) :
  Forall (fun c => (Byte.to_N c < 128)%N) b ->
  utf8_decode b = Some (map Byte.to_N b).
Proof.
  induction 1 as [|c b Hc _ IH]; [reflexivity|].
  cbn [utf8_decode map].
  apply N.ltb_lt in Hc. rewrite Hc, IH. reflexivity.
Qed.

Lemma ascii_encode_to_N (b : bytes) :
  Forall (fun c => (Byte.to_N c < 128)%N) b ->
  ascii_encode (map Byte.to_N b) = Some b.
Proof.
  induction 1 as [|c b Hc _ IH]; [reflexivity|].
  cbn [ascii_encode map].
  apply N.ltb_lt in Hc. rewrite Hc, Byte.of_to_N, IH. reflexivity.
Qed.

Lemma b64_payload_roundtrip (data : bytes) :
  utf8_decode (base64.b64encode data) =
    Some (map Byte.to_N (base64.b64encode data)) /\
  b64decode_str (map Byte.to_N (base64.b64encode data)) = Some data.
Proof.
  pose proof (base64_facts.b64encode_ascii data) as H. split.
  - now apply utf8_decode_ascii.
  - unfold b64decode_str. rewrite ascii_encode_to_N by assumption.
    apply base64_facts.b64decode_b64encode.
Qed.

(* ===================================================================== *)
(** ** Substrings                                                          *)
(* ===================================================================== *)

Lemma startswith_app (s p : str) :
  startswith s p = true -> exists q, s = p ++ q.
Proof.
  revert s. induction p as [|c p IH]; intros s H.
  - now exists s.
  - destruct s as [|d s]; [discriminate|]. cbn in H.
    apply andb_true_iff in H as [Hc Hp]. apply N.eqb_eq in Hc. subst d.
    destruct (IH _ Hp) as [q ->]. now exists q.
Qed.

Lemma str_in_app (sub s : str) :
  str_in sub s = true -> exists p q, s = p ++ sub ++ q.
Proof.
  induction s as [|d s IH]; cbn [str_in]; intros H;
    apply orb_true_iff in H as [H|H].
  - apply startswith_app in H as [q ->]. now exists [], q.
  - discriminate.
  - apply startswith_app in H as [q ->]. now exists [], q.
  - destruct (IH H) as (p & q & ->). now exists (d :: p), q.
Qed.

Lemma str_in_chars (sub s : str) (c : codepoint) :
  str_in sub s = true -> In c sub -> In c s.
Proof.
  intros H Hc. apply str_in_app in H as (p & q & ->).
  apply in_or_app. right. apply in_or_app. now left.
Qed.

Lemma str_mul_star (n : nat) : str_mul (lit "*") n = repeat mask n.
Proof. induction n as [|n IH]; [reflexivity|]. cbn [str_mul repeat]. now rewrite IH. Qed.

(* ===================================================================== *)
(** ** Properties of the facade                                            *)
(* ===================================================================== *)

Section Properties.

Context {Ext : Type}.
Variable provider : Runnable -> pyval -> Ext -> Outcome pyval * Ext.
Variable schema_error : ChatGoogleGenerativeAI -> pyval -> option PyExc.

Lemma call_llm_run (messages : pyval) (stream : bool) (st : State Ext) :
  let r := Chat (llm (self st)) in
  let res := provider r messages (ext (env st)) in
  call_llm provider messages stream st =
  match fst res with
  | Returned v =>
      (Returned v, after_invoke st r messages (snd res) [calling] [generated])
  | Raised e =>
      (Raised e, after_invoke st r messages (snd res) [calling] [])
  end.
Proof.
  unfold call_llm, bind, logging_info, emit, get_self, invoke, ret, after_invoke.
  cbn [self env fs ext log invoked built events].
  destruct (provider _ _ _) as [[v|e] x];
    cbn [fst snd self env fs ext log invoked built events];
    rewrite <- ?app_assoc; reflexivity.
Qed.

Lemma call_llm_json_run (messages structure : pyval) (st : State Ext) :
  let r := Structured (llm (self st)) structure in
  let res := provider r messages (ext (env st)) in
  call_llm_json provider schema_error messages structure st =
  match schema_error (llm (self st)) structure with
  | Some e => (Raised e, logged st [calling])
  | None =>
      match fst res with
      | Returned v =>
          (Returned v,
           after_invoke st r messages (snd res) [calling] [generated_json])
      | Raised e =>
          (Raised e, after_invoke st r messages (snd res) [calling] [])
      end
  end.
Proof.
  unfold call_llm_json, with_structured_output, bind, logging_info, emit,
    get_self, invoke, ret, raise, after_invoke, logged.
  cbn [self env fs ext log invoked built events].
  destruct (schema_error _ _) as [e|]; [reflexivity|].
  destruct (provider _ _ _) as [[v|e] x];
    cbn [fst snd self env fs ext log invoked built events];
    rewrite <- ?app_assoc; reflexivity.
Qed.

Lemma call_llm_effect (messages : pyval) (stream : bool) (st : State Ext) :
  let res := provider (Chat (llm (self st))) messages (ext (env st)) in
  let out := call_llm provider messages stream st in
  fst out = fst res /\
  invoked (env (snd out)) =
    invoked (env st) ++ [(Chat (llm (self st)), messages)].
Proof.
  cbv zeta. rewrite call_llm_run. cbv zeta.
  destruct (fst (provider _ _ _)); cbn; auto.
Qed.

(** C3. Plain completion returns exactly what the underlying client's
    synchronous invocation produces on the same message sequence: the
    outcome of [call_llm] is the outcome of the provider on the held
    client and the caller's messages, the messages reach the client as
    they were given, and the provider is left in the state that single
    invocation put it in. *)
Theorem call_llm_passthrough (messages : pyval) (stream : bool) (st : State Ext) :
  let res := provider (Chat (llm (self st))) messages (ext (env st)) in
  let out := call_llm provider messages stream st in
  fst out = fst res /\
  ext (env (snd out)) = snd res /\
  invoked (env (snd out)) =
    invoked (env st) ++ [(Chat (llm (self st)), messages)].
Proof.
  cbv zeta. rewrite call_llm_run. cbv zeta.
  destruct (fst (provider _ _ _)); cbn; auto.
Qed.

(** C5. The stream flag is dead: [call_llm] with the flag set and with
    the flag clear are the same computation (same outcome, same final
    state), and either way exactly one invocation of the client is made,
    on the whole message sequence. *)
Theorem call_llm_stream_irrelevant (messages : pyval) (st : State Ext) :
  call_llm provider messages true st = call_llm provider messages false st /\
  forall stream,
    invoked (env (snd (call_llm provider messages stream st))) =
      invoked (env st) ++ [(Chat (llm (self st)), messages)].
Proof.
  split; [reflexivity|].
  intros stream. apply call_llm_effect.
Qed.


(** C6. Plain and structured completion are fail-fast: when the client's
    invocation raises, the same exception object reaches the caller
    (nothing is caught or converted), and nothing is logged after the
    call; for structured completion the invocation is the one made once
    the schema is bound, and an exception raised by binding the schema
    reaches the caller in the same way, before any invocation. *)
Theorem completion_errors_propagate
    (messages structure : pyval) (stream : bool) (st : State Ext) (e : PyExc) :
  (fst (provider (Chat (llm (self st))) messages (ext (env st))) = Raised e ->
   fst (call_llm provider messages stream st) = Raised e /\
   log (env (snd (call_llm provider messages stream st))) =
     log (env st) ++ [calling]) /\
  (schema_error (llm (self st)) structure = None ->
   fst (provider (Structured (llm (self st)) structure) messages
          (ext (env st))) = Raised e ->
   fst (call_llm_json provider schema_error messages structure st) = Raised e /\
   log (env (snd (call_llm_json provider schema_error messages structure st))) =
     log (env st) ++ [calling]) /\
  (schema_error (llm (self st)) structure = Some e ->
   fst (call_llm_json provider schema_error messages structure st) = Raised e /\
   log (env (snd (call_llm_json provider schema_error messages structure st))) =
     log (env st) ++ [calling] /\
   invoked (env (snd (call_llm_json provider schema_error messages structure st))) =
     invoked (env st)).
Proof.
  split; [|split].
  - intros H. rewrite call_llm_run. cbv zeta. rewrite H. split; reflexivity.
  - intros Hs H. rewrite call_llm_json_run, Hs. cbv zeta. rewrite H.
    split; reflexivity.
  - intros Hs. rewrite call_llm_json_run, Hs. repeat split.
Qed.

(** C7. Construction with a credential and no model identifier selects
    the default ["models/gemini-1.5-flash"]: the instance holds it, the
    client is constructed with it, and it is that client a completion
    invokes. *)
Theorem default_model_selected
    (credential : str) (w : World Ext) (messages : pyval) (stream : bool) :
  let st := __init__ credential None w in
  model (self st) = lit "models/gemini-1.5-flash" /\
  chat_model (llm (self st)) = lit "models/gemini-1.5-flash" /\
  api_key (self st) = credential /\
  exists client,
    chat_model client = lit "models/gemini-1.5-flash" /\
    invoked (env (snd (call_llm provider messages stream st))) =
      invoked w ++ [(Chat client, messages)].
Proof.
  cbv zeta. repeat split.
  eexists. split; [|apply call_llm_effect]. reflexivity.
Qed.

(** C8. Construction builds exactly one client, the one the instance
    holds, configured with the given model identifier and credential,
    temperature 0, no token ceiling, no timeout and 2 retries. *)
Theorem client_configuration
    (credential : str) (model_id : option str) (w : World Ext) :
  let st := __init__ credential model_id w in
  built (env st) = built w ++ [llm (self st)] /\
  llm (self st) =
    {| chat_model := match model_id with
                     | Some m => m
                     | None => lit "models/gemini-1.5-flash"
                     end;
       chat_api_key := credential;
       temperature := 0;
       max_tokens := None;
       timeout := None;
       max_retries := 2 |}.
Proof. split; reflexivity. Qed.

Lemma lookup_attr_raises (obj : pyval) (name : string) (e : PyExc) :
  lookup_attr obj name = Raised e -> isinstance e "Exception" = true.
Proof.
  unfold lookup_attr. intros H.
  destruct obj; try (injection H as <-; reflexivity).
  destruct (assoc name attrs); [discriminate|].
  injection H as <-. reflexivity.
Qed.

Lemma handler_after_invoke (e : PyExc) (st : State Ext) (r : Runnable)
    (messages : pyval) (x : Ext) (before after : list LogRecord) :
  bind (logging_error (lit "Error describing video: " ++ exc_str e))
       (fun _ => ret PyNone)
       (after_invoke st r messages x before after) =
  (Returned PyNone,
   after_invoke st r messages x before (after ++ [describing_failed e])).
Proof.
  unfold bind, logging_error, emit, ret, after_invoke, describing_failed.
  cbn [self env fs ext log invoked built events].
  rewrite map_app, <- !app_assoc. reflexivity.
Qed.

(** [describe_video], case by case. *)
Lemma describe_video_run (video_path : str) (st : State Ext) :
  describe_video provider video_path st =
  match fs (env st) video_path with
  | Raised e =>
      if isinstance e "Exception"
      then (Returned PyNone, logged st [describing_failed e])
      else (Raised e, st)
  | Returned data =>
      let messages := video_messages (map Byte.to_N (base64.b64encode data)) in
      let r := Chat (llm (self st)) in
      let res := provider r messages (ext (env st)) in
      match fst res with
      | Raised e =>
          if isinstance e "Exception"
          then (Returned PyNone,
                after_invoke st r messages (snd res)
                  [calling] [describing_failed e])
          else (Raised e, after_invoke st r messages (snd res) [calling] [])
      | Returned response =>
          match lookup_attr response "content" with
          | Returned content =>
              (Returned content,
               after_invoke st r messages (snd res) [calling] [generated])
          | Raised e =>
              (Returned PyNone,
               after_invoke st r messages (snd res)
                 [calling] [generated; describing_failed e])
          end
      end
  end.
Proof.
  unfold describe_video, try_except.
  unfold bind at 1. unfold open_rb_read. cbn [fst snd].
  destruct (fs (env st) video_path) as [data|e].
  - unfold bind at 1. unfold decode_utf8.
    destruct (b64_payload_roundtrip data) as [-> _].
    unfold ret at 1. unfold bind at 1.
    rewrite call_llm_run. cbv zeta.
    destruct (fst (provider _ _ _)) as [response|e].
    + unfold getattr, lift.
      destruct (lookup_attr response "content") as [content|e] eqn:Hc.
      * reflexivity.
      * rewrite (lookup_attr_raises _ _ _ Hc). apply handler_after_invoke.
    + destruct (isinstance e "Exception"); [apply handler_after_invoke|reflexivity].
  - destruct (isinstance e "Exception"); reflexivity.
Qed.

Lemma step_raises_inv (video_path : str) (st : State Ext) (e : PyExc) :
  step_raises provider video_path st e ->
  fs (env st) video_path = Raised e \/
  exists data,
    fs (env st) video_path = Returned data /\
    let messages := video_messages (map Byte.to_N (base64.b64encode data)) in
    let res := provider (Chat (llm (self st))) messages (ext (env st)) in
    (fst res = Raised e \/
     exists response,
       fst res = Returned response /\ lookup_attr response "content" = Raised e).
Proof.
  intros [H|data H He|data encoded H Hd Hp|data encoded response H Hd Hp Hc].
  - now left.
  - exfalso. unfold decode_utf8 in He.
    destruct (b64_payload_roundtrip data) as [E _]. rewrite E in He.
    discriminate.
  - destruct (b64_payload_roundtrip data) as [E _]. rewrite E in Hd.
    injection Hd as <-. right. exists data. split; [assumption|]. now left.
  - destruct (b64_payload_roundtrip data) as [E _]. rewrite E in Hd.
    injection Hd as <-. right. exists data. split; [assumption|].
    right. now exists response.
Qed.

(** What [except Exception] lets through. *)
Lemma describe_video_propagates
    (video_path : str) (st : State Ext) (e : PyExc) :
  step_raises provider video_path st e ->
  isinstance e "Exception" = false ->
  fst (describe_video provider video_path st) = Raised e /\
  exists added,
    log (env (snd (describe_video provider video_path st))) =
      log (env st) ++ added /\
    forall msg, ~ In (ERROR, msg) added.
Proof.
  intros H Hi. rewrite describe_video_run.
  apply step_raises_inv in H as [H|(data & H & [Hp|(response & Hp & Hc)])];
    cbv zeta in *; rewrite H.
  - rewrite Hi. split; [reflexivity|]. exists []. split.
    + cbn. now rewrite app_nil_r.
    + intros msg [].
  - rewrite Hp, Hi. split; [reflexivity|]. exists [calling]. split.
    + reflexivity.
    + intros msg [E|[]]. discriminate.
  - rewrite (lookup_attr_raises _ _ _ Hc) in Hi. discriminate.
Qed.

(** C1, in the form the code satisfies. [describe_video] is fail-soft for everything an
    [except Exception] clause catches: when a step raises an instance of
    [Exception], the call returns [None] and its last log record is the
    error record carrying the exception's text; a missing file
    ([FileNotFoundError]) is such a case, with nothing else logged and no
    invocation made; an exception that does leave the call is not an
    instance of [Exception] and was raised by one of the steps; and when a
    step raises something that is not an instance of [Exception]
    ([KeyboardInterrupt], [SystemExit], [GeneratorExit]), the call raises
    it to the caller and logs no error record. *)
Theorem describe_video_fail_soft (video_path : str) (st : State Ext) :
  let out := describe_video provider video_path st in
  (forall e,
     step_raises provider video_path st e ->
     isinstance e "Exception" = true ->
     fst out = Returned PyNone /\
     exists before,
       log (env (snd out)) =
         log (env st) ++ before ++
         [(ERROR, lit "Error describing video: " ++ exc_str e)]) /\
  (forall msg,
     fs (env st) video_path = Raised (FileNotFoundError msg) ->
     fst out = Returned PyNone /\
     log (env (snd out)) =
       log (env st) ++ [(ERROR, lit "Error describing video: " ++ msg)] /\
     invoked (env (snd out)) = invoked (env st)) /\
  (forall e,
     fst out = Raised e ->
     isinstance e "Exception" = false /\
     step_raises provider video_path st e) /\
  (forall e,
     step_raises provider video_path st e ->
     isinstance e "Exception" = false ->
     fst out = Raised e /\
     exists added,
       log (env (snd out)) = log (env st) ++ added /\
       forall msg, ~ In (ERROR, msg) added).
Proof.
  cbv zeta.
  split; [|split; [|split; [|apply describe_video_propagates]]];
    rewrite describe_video_run; repeat split.
  - apply step_raises_inv in H as [H|(data & H & [Hp|(response & Hp & Hc)])];
      cbv zeta in *; rewrite H; [rewrite H0| rewrite Hp, H0 | rewrite Hp, Hc];
      reflexivity.
  - apply step_raises_inv in H as [H|(data & H & [Hp|(response & Hp & Hc)])];
      cbv zeta in *; rewrite H; [rewrite H0| rewrite Hp, H0 | rewrite Hp, Hc].
    + now exists [].
    + now exists [calling].
    + now exists [calling; generated].
  - rewrite H. reflexivity.
  - rewrite H. reflexivity.
  - rewrite H. reflexivity.
  - destruct (fs (env st) video_path) as [data|e'] eqn:Hf.
    + cbv zeta in H.
      destruct (fst (provider _ _ _)) as [response|e'] eqn:Hp.
      * destruct (lookup_attr response "content"); discriminate.
      * destruct (isinstance e' "Exception") eqn:Hi; [discriminate|].
        cbn in H. injection H as <-. exact Hi.
    + destruct (isinstance e' "Exception") eqn:Hi; [discriminate|].
      cbn in H. injection H as <-. exact Hi.
  - destruct (fs (env st) video_path) as [data|e'] eqn:Hf.
    + cbv zeta in H.
      destruct (fst (provider _ _ _)) as [response|e'] eqn:Hp.
      * destruct (lookup_attr response "content"); discriminate.
      * destruct (isinstance e' "Exception") eqn:Hi; [discriminate|].
        cbn in H. injection H as <-.
        eapply raises_invoke; [exact Hf| apply b64_payload_roundtrip | exact Hp].
    + destruct (isinstance e' "Exception") eqn:Hi; [discriminate|].
      cbn in H. injection H as <-. now apply raises_read.
Qed.

(** C2. For a readable file with content [data], [describe_video] makes
    exactly one invocation, of the held client, on a list of one message
    of role [user] whose content is the text part [Describe this video.]
    followed by the video part whose [raw_bytes] is the base64 text of
    [data] (decoding it gives [data] back); and when the client answers
    with a response that has a [content], that content is returned. *)
Theorem describe_video_request
    (video_path : str) (data : bytes) (st : State Ext) :
  fs (env st) video_path = Returned data ->
  let out := describe_video provider video_path st in
  exists payload : str,
    payload = map Byte.to_N (base64.b64encode data) /\
    b64decode_str payload = Some data /\
    let messages :=
      PyList
        [PyDict
           [(lit "role", PyStr (lit "user"));
            (lit "content",
             PyList
               [PyDict [(lit "type", PyStr (lit "text"));
                        (lit "text", PyStr (lit "Describe this video."))];
                PyDict [(lit "type", PyStr (lit "video"));
                        (lit "raw_bytes", PyStr payload)]])]] in
    invoked (env (snd out)) =
      invoked (env st) ++ [(Chat (llm (self st)), messages)] /\
    forall response content,
      fst (provider (Chat (llm (self st))) messages (ext (env st))) =
        Returned response ->
      lookup_attr response "content" = Returned content ->
      fst out = Returned content.
Proof.
  intros Hf. cbv zeta. rewrite describe_video_run, Hf. cbv zeta.
  exists (map Byte.to_N (base64.b64encode data)).
  split; [reflexivity|]. split; [apply b64_payload_roundtrip|].
  fold (video_messages (map Byte.to_N (base64.b64encode data))).
  split.
  - destruct (fst (provider _ _ _)) as [response|e].
    + destruct (lookup_attr response "content"); reflexivity.
    + destruct (isinstance e "Exception"); reflexivity.
  - intros response content Hp Hc. rewrite Hp, Hc. reflexivity.
Qed.

Lemma describe_video_self (video_path : str) (st : State Ext) :
  self (snd (describe_video provider video_path st)) = self st.
Proof.
  rewrite describe_video_run.
  destruct (fs (env st) video_path) as [data|e].
  - cbv zeta. destruct (fst (provider _ _ _)) as [response|e].
    + destruct (lookup_attr response "content"); reflexivity.
    + destruct (isinstance e "Exception"); reflexivity.
  - destruct (isinstance e "Exception"); reflexivity.
Qed.

Lemma run_op_self (op : Op) (st : State Ext) :
  self (run_op provider schema_error op st) = self st.
Proof.
  destruct op as [messages stream|messages structure|video_path| |];
    cbn [run_op].
  - rewrite call_llm_run. cbv zeta.
    destruct (fst (provider _ _ _)); reflexivity.
  - rewrite call_llm_json_run. cbv zeta.
    destruct (schema_error _ _); [reflexivity|].
    destruct (fst (provider _ _ _)); reflexivity.
  - apply describe_video_self.
  - reflexivity.
  - reflexivity.
Qed.

Lemma run_ops_self (ops : list Op) (st : State Ext) :
  self (run_ops provider schema_error ops st) = self st.
Proof.
  revert st. induction ops as [|op ops IH]; intros st; [reflexivity|].
  cbn [run_ops fold_left].
  fold (run_ops provider schema_error ops (run_op provider schema_error op st)).
  rewrite IH. apply run_op_self.
Qed.

(** C9. No operation changes the instance: after any of the five
    operations, and so after any sequence of them, [self] (credential,
    model identifier and held client) is what it was; and a schema given
    to [call_llm_json] is bound for that call only, since a [call_llm]
    that follows invokes the held client itself, not the structured
    runnable, and returns what the provider answers to that, whether the
    structured call invoked its runnable or was stopped by the schema. *)
Theorem operations_preserve_self (st : State Ext) :
  (forall op, self (run_op provider schema_error op st) = self st) /\
  (forall ops, self (run_ops provider schema_error ops st) = self st) /\
  (forall messages1 structure messages2 stream,
     let st1 := snd (call_llm_json provider schema_error messages1 structure st) in
     let out := call_llm provider messages2 stream st1 in
     fst out =
       fst (provider (Chat (llm (self st))) messages2 (ext (env st1))) /\
     invoked (env (snd out)) =
       invoked (env st) ++
       match schema_error (llm (self st)) structure with
       | None => [(Structured (llm (self st)) structure, messages1)]
       | Some _ => []
       end ++
       [(Chat (llm (self st)), messages2)]).
Proof.
  split; [|split].
  - intros op. apply run_op_self.
  - intros ops. apply run_ops_self.
  - intros messages1 structure messages2 stream st1 out.
    assert (Hs : self st1 = self st)
      by apply (run_op_self (OpCallLlmJson messages1 structure)).
    assert (H1 : invoked (env st1) =
                 invoked (env st) ++
                 match schema_error (llm (self st)) structure with
                 | None => [(Structured (llm (self st)) structure, messages1)]
                 | Some _ => []
                 end).
    { unfold st1. rewrite call_llm_json_run. cbv zeta.
      destruct (schema_error _ _);
        [cbn [snd logged env invoked]; now rewrite app_nil_r|].
      destruct (fst (provider _ _ _)); reflexivity. }
    destruct (call_llm_effect messages2 stream st1) as (Ho & Hi).
    fold out in Ho, Hi. rewrite Hs in Ho, Hi. split; [exact Ho|].
    rewrite Hi, H1, <- app_assoc. reflexivity.
Qed.

(** C10. The debug and the display representation are the same function:
    on every state they give the same outcome and leave the same state. *)
Theorem repr_eq_str (st : State Ext) : __repr__ st = __str__ st.
Proof. reflexivity. Qed.

Lemma not_in_lit_cons (c d : codepoint) (s : str) :
  c <> d -> ~ In c s -> ~ In c (d :: s).
Proof. intros Hd Hs [E|H]; [now apply Hd|now apply Hs]. Qed.

(** C4, in the form the code satisfies. The text representation is
    [Gemini(model=<model>, api_key=<run>)] where the run is as many mask
    characters as the credential has characters; it is the same text for
    any credential of that length; and it does not contain the credential
    whenever the credential has a character, other than the mask
    character, that occurs neither in the model identifier nor in the
    fixed text [Gemini(model=, api_key=)]. *)
Theorem str_masks_credential (st : State Ext) :
  let key := api_key (self st) in
  let text :=
    lit "Gemini(model=" ++ model (self st) ++ lit ", api_key=" ++
    repeat mask (List.length key) ++ lit ")" in
  fst (__str__ st) = Returned text /\
  (forall st' : State Ext,
     model (self st') = model (self st) ->
     List.length (api_key (self st')) = List.length key ->
     fst (__str__ st') = Returned text) /\
  (forall c,
     In c key -> c <> mask ->
     ~ In c (model (self st)) ->
     ~ In c (lit "Gemini(model=, api_key=)") ->
     str_in key text = false).
Proof.
  cbv zeta. split; [|split].
  - unfold __str__, bind, get_self, ret. cbn [fst]. now rewrite str_mul_star.
  - intros st' Hm Hl. unfold __str__, bind, get_self, ret. cbn [fst].
    now rewrite str_mul_star, Hm, Hl.
  - intros c Hk Hmask Hmodel Hfixed.
    destruct (str_in _ _) eqn:E; [|reflexivity]. exfalso.
    pose proof (str_in_chars _ _ c E Hk) as H.
    repeat (apply in_app_or in H as [H|H]).
    + apply Hfixed. cbn in H |- *. tauto.
    + now apply Hmodel.
    + apply Hfixed. cbn in H |- *. tauto.
    + apply repeat_spec in H. now apply Hmask.
    + apply Hfixed. cbn in H |- *. tauto.
Qed.

End Properties.

(* ===================================================================== *)
(** ** The statements at concrete inputs                                   *)
(* ===================================================================== *)

Example b64encode_Man :
  base64.b64encode (list_byte_of_string "Man") = list_byte_of_string "TWFu".
Proof. reflexivity. Qed.

Example b64encode_padding :
  base64.b64encode (list_byte_of_string "light work") =
    list_byte_of_string "bGlnaHQgd29yaw==" /\
  base64.b64encode (list_byte_of_string "light work.") =
    list_byte_of_string "bGlnaHQgd29yay4=".
Proof. split; reflexivity. Qed.

Example str_of_gemini0 :
  fst (__str__ Demo.gemini0) =
    Returned (lit "Gemini(model=models/gemini-1.5-flash, api_key=***)").
Proof. reflexivity. Qed.

(** An interrupt during the model call leaves [describe_video] as an
    exception: the step raises, nothing is returned and no error record is
    logged. *)
Lemma describe_video_propagates_interrupt :
  step_raises Demo.interrupted (lit "clip.mp4") Demo.gemini0 KeyboardInterrupt /\
  fst (describe_video Demo.interrupted (lit "clip.mp4") Demo.gemini0) =
    Raised KeyboardInterrupt /\
  fst (describe_video Demo.interrupted (lit "clip.mp4") Demo.gemini0) <>
    Returned PyNone /\
  log (env (snd (describe_video Demo.interrupted (lit "clip.mp4") Demo.gemini0))) =
    [calling].
Proof.
  split; [|split; [|split]].
  - eapply raises_invoke; reflexivity.
  - reflexivity.
  - discriminate.
  - reflexivity.
Qed.

(** [describe_video_fail_soft] at a failing transport, at a missing file
    and, in both directions, at an interrupted call. *)
Lemma describe_video_fail_soft_witness :
  (fst (describe_video Demo.failing (lit "clip.mp4") Demo.gemini0) =
     Returned PyNone /\
   exists before,
     log (env (snd (describe_video Demo.failing (lit "clip.mp4") Demo.gemini0))) =
       log (env Demo.gemini0) ++ before ++
       [(ERROR, lit "Error describing video: " ++ exc_str Demo.ConnectionError)]) /\
  (fst (describe_video Demo.failing (lit "nope.mp4") Demo.gemini0) =
     Returned PyNone /\
   log (env (snd (describe_video Demo.failing (lit "nope.mp4") Demo.gemini0))) =
     log (env Demo.gemini0) ++
     [(ERROR, lit "Error describing video: " ++
              lit "[Errno 2] No such file or directory")] /\
   invoked (env (snd (describe_video Demo.failing (lit "nope.mp4") Demo.gemini0))) =
     invoked (env Demo.gemini0)) /\
  (isinstance KeyboardInterrupt "Exception" = false /\
   step_raises Demo.interrupted (lit "clip.mp4") Demo.gemini0 KeyboardInterrupt) /\
  (fst (describe_video Demo.interrupted (lit "clip.mp4") Demo.gemini0) =
     Raised KeyboardInterrupt /\
   exists added,
     log (env (snd (describe_video Demo.interrupted (lit "clip.mp4")
                      Demo.gemini0))) =
       log (env Demo.gemini0) ++ added /\
     forall msg, ~ In (ERROR, msg) added).
Proof.
  split; [|split; [|split]].
  - apply (proj1 (describe_video_fail_soft Demo.failing (lit "clip.mp4")
                    Demo.gemini0) Demo.ConnectionError).
    + eapply raises_invoke; reflexivity.
    + reflexivity.
  - apply (proj1 (proj2 (describe_video_fail_soft Demo.failing (lit "nope.mp4")
                           Demo.gemini0))
             (lit "[Errno 2] No such file or directory")).
    reflexivity.
  - apply (proj1 (proj2 (proj2 (describe_video_fail_soft Demo.interrupted
                                  (lit "clip.mp4") Demo.gemini0)))
             KeyboardInterrupt).
    reflexivity.
  - apply (proj2 (proj2 (proj2 (describe_video_fail_soft Demo.interrupted
                                  (lit "clip.mp4") Demo.gemini0)))
             KeyboardInterrupt).
    + eapply raises_invoke; reflexivity.
    + reflexivity.
Defined.

(** [describe_video_request] on the file [clip.mp4] with an answering
    provider. *)
Lemma describe_video_request_witness :
  exists payload : str,
    payload = lit "TWFuIQ==" /\
    b64decode_str payload = Some Demo.clip /\
    invoked (env (snd (describe_video Demo.answering (lit "clip.mp4") Demo.gemini0))) =
      [(Chat (llm (self Demo.gemini0)), video_messages payload)] /\
    fst (describe_video Demo.answering (lit "clip.mp4") Demo.gemini0) =
      Returned (PyStr (lit "A cat.")).
Proof.
  destruct (describe_video_request Demo.answering (lit "clip.mp4") Demo.clip
              Demo.gemini0 eq_refl) as (payload & Hp & Hd & Hi & Hr).
  exists payload. split; [exact Hp|]. split; [exact Hd|]. split; [exact Hi|].
  apply (Hr (PyObject "AIMessage" [("content"%string, PyStr (lit "A cat."))])).
  - rewrite Hp. reflexivity.
  - reflexivity.
Defined.

(** [completion_errors_propagate] at a failing transport and at a schema
    the library does not accept. *)
Lemma completion_errors_propagate_witness :
  fst (call_llm Demo.failing (PyList [PyStr (lit "hi")]) false Demo.gemini0) =
    Raised Demo.ConnectionError /\
  fst (call_llm_json Demo.failing Demo.strict (PyList [PyStr (lit "hi")])
         (PyDict []) Demo.gemini0) = Raised Demo.ConnectionError /\
  (fst (call_llm_json Demo.answering Demo.strict (PyList [PyStr (lit "hi")])
          PyNone Demo.gemini0) =
     Raised (ValueError (lit "unsupported schema")) /\
   log (env (snd (call_llm_json Demo.answering Demo.strict
                    (PyList [PyStr (lit "hi")]) PyNone Demo.gemini0))) =
     log (env Demo.gemini0) ++ [calling] /\
   invoked (env (snd (call_llm_json Demo.answering Demo.strict
                        (PyList [PyStr (lit "hi")]) PyNone Demo.gemini0))) =
     invoked (env Demo.gemini0)).
Proof.
  pose proof (completion_errors_propagate Demo.failing Demo.strict
                (PyList [PyStr (lit "hi")]) (PyDict []) false Demo.gemini0
                Demo.ConnectionError) as (H1 & H2 & _).
  pose proof (completion_errors_propagate Demo.answering Demo.strict
                (PyList [PyStr (lit "hi")]) PyNone false Demo.gemini0
                (ValueError (lit "unsupported schema"))) as (_ & _ & H3).
  split; [|split].
  - apply H1. reflexivity.
  - apply H2; reflexivity.
  - apply H3. reflexivity.
Defined.


(** The credential [key] occurs in the text that is meant to hide it, and
    so does the empty credential. *)
Lemma str_contains_credential :
  api_key (self Demo.gemini0) = lit "key" /\
  fst (__str__ Demo.gemini0) =
    Returned (lit "Gemini(model=models/gemini-1.5-flash, api_key=***)") /\
  str_in (lit "key")
    (lit "Gemini(model=models/gemini-1.5-flash, api_key=***)") = true /\
  fst (__str__ (__init__ [] None Demo.world0)) =
    Returned (lit "Gemini(model=models/gemini-1.5-flash, api_key=)") /\
  str_in [] (lit "Gemini(model=models/gemini-1.5-flash, api_key=)") = true.
Proof. repeat split. Qed.

(** [str_masks_credential] at a credential of eleven characters. *)
Lemma str_masks_credential_witness :
  fst (__str__ Demo.gemini1) =
    Returned (lit "Gemini(model=models/gemini-1.5-flash, api_key=***********)") /\
  fst (__str__ (__init__ (lit "ABCDEFGHIJK") None Demo.world0)) =
    Returned (lit "Gemini(model=models/gemini-1.5-flash, api_key=***********)") /\
  str_in (lit "AIza-secret")
    (lit "Gemini(model=models/gemini-1.5-flash, api_key=***********)") = false.
Proof.
  destruct (str_masks_credential Demo.gemini1) as (H1 & H2 & H3).
  split; [exact H1|]. split.
  - apply H2; reflexivity.
  - apply (H3 (N_of_ascii "A")).
    + left. reflexivity.
    + discriminate.
    + vm_compute. intuition discriminate.
    + vm_compute. intuition discriminate.
Defined.

(* ===================================================================== *)
(** ** base64 text: size and alphabet                                      *)
(* ===================================================================== *)

Lemma b64char_in_alphabet (i : N) :
  (i < 64)%N -> In (base64.b64char i) base64.alphabet.
Proof.
  intros H. unfold base64.b64char. apply nth_In.
  change (List.length base64.alphabet) with 64%nat. lia.
Qed.

(** X4. The base64 text of [n] octets has [4 * ceil(n / 3)] characters:
    the request [describe_video] builds is a third larger than the file. *)
Theorem b64encode_length (data : bytes) :
  List.length (base64.b64encode data) = (4 * ((List.length data + 2) / 3))%nat /\
  List.length (payload_of data) = (4 * ((List.length data + 2) / 3))%nat.
Proof.
  assert (H : List.length (base64.b64encode data) =
              (4 * ((List.length data + 2) / 3))%nat).
  { induction data as [|a|a b|a b c rest IH] using base64_facts.list_ind3;
      try reflexivity.
    cbn [base64.b64encode List.length]. rewrite IH.
    replace (S (S (S (List.length rest))) + 2)%nat
      with (List.length rest + 2 + 1 * 3)%nat by lia.
    rewrite Nat.div_add by discriminate. lia. }
  split; [exact H|]. unfold payload_of. now rewrite length_map.
Qed.

(** X3. The base64 text consists of alphabet characters and [=] only, so
    decoding it as UTF-8 cannot fail: the encoding step of [describe_video]
    always yields the text, whatever the file holds. *)
Theorem b64_text_always_decodes (Ext : Type) (data : bytes) (st : State Ext) :
  Forall (fun c => In c base64.alphabet \/ c = base64.pad)
         (base64.b64encode data) /\
  decode_utf8 (base64.b64encode data) st = (Returned (payload_of data), st).
Proof.
  split.
  - induction data as [|a|a b|a b c rest IH] using base64_facts.list_ind3;
      cbn [base64.b64encode];
      repeat (apply Forall_cons;
              [first [ right; reflexivity
                     | left; apply b64char_in_alphabet, base64_facts.sextet_lt ]|]);
      try apply Forall_nil.
    exact IH.
  - unfold decode_utf8. destruct (b64_payload_roundtrip data) as [-> _].
    reflexivity.
Qed.

Section MoreProperties.

Context {Ext : Type}.
Variable provider : Runnable -> pyval -> Ext -> Outcome pyval * Ext.
Variable schema_error : ChatGoogleGenerativeAI -> pyval -> option PyExc.

(** X1. Structured completion is a passthrough as well: when the library
    accepts the schema, its outcome is the provider's outcome on the
    runnable derived from the held client with that schema, the messages
    reach it as given, and exactly that one invocation is made; when
    binding the schema raises, that exception is the outcome and nothing
    is invoked. *)
Theorem call_llm_json_passthrough (messages structure : pyval) (st : State Ext) :
  let r := Structured (llm (self st)) structure in
  let out := call_llm_json provider schema_error messages structure st in
  match schema_error (llm (self st)) structure with
  | Some e =>
      fst out = Raised e /\
      ext (env (snd out)) = ext (env st) /\
      invoked (env (snd out)) = invoked (env st)
  | None =>
      let res := provider r messages (ext (env st)) in
      fst out = fst res /\
      ext (env (snd out)) = snd res /\
      invoked (env (snd out)) = invoked (env st) ++ [(r, messages)]
  end.
Proof.
  cbv zeta. rewrite call_llm_json_run. cbv zeta.
  destruct (schema_error _ _); [repeat split|].
  destruct (fst (provider _ _ _)); cbn; auto.
Qed.

(** X2. The two INFO records of a completion are logged around the
    invocation: when the invocation returns, what the call did, in order,
    is the first record, the invocation, the second record (which tells
    plain from structured); for the structured call this is once the
    library has accepted the schema. *)
Theorem completion_logs_around_call
    (messages structure : pyval) (stream : bool) (st : State Ext) (v : pyval) :
  (fst (provider (Chat (llm (self st))) messages (ext (env st))) = Returned v ->
   events (env (snd (call_llm provider messages stream st))) =
     events (env st) ++
     [Logged (INFO, lit "Caling LLM...........................");
      Invoked (Chat (llm (self st))) messages;
      Logged (INFO, lit "Response Genereted from LLM")] /\
   log (env (snd (call_llm provider messages stream st))) =
     log (env st) ++
     [(INFO, lit "Caling LLM...........................");
      (INFO, lit "Response Genereted from LLM")]) /\
  (schema_error (llm (self st)) structure = None ->
   fst (provider (Structured (llm (self st)) structure) messages
          (ext (env st))) = Returned v ->
   events (env (snd (call_llm_json provider schema_error messages structure st))) =
     events (env st) ++
     [Logged (INFO, lit "Caling LLM...........................");
      Invoked (Structured (llm (self st)) structure) messages;
      Logged (INFO, lit "Response Genereted from LLM in strcutured json format")] /\
   log (env (snd (call_llm_json provider schema_error messages structure st))) =
     log (env st) ++
     [(INFO, lit "Caling LLM...........................");
      (INFO, lit "Response Genereted from LLM in strcutured json format")]).
Proof.
  split.
  - intros H. rewrite call_llm_run. cbv zeta. rewrite H. split; reflexivity.
  - intros Hs H. rewrite call_llm_json_run, Hs. cbv zeta. rewrite H.
    split; reflexivity.
Qed.

(** X5. [describe_video] makes at most one model call, and none unless the
    file could be read: a failed read leaves the provider, the invocations
    and the clients as they were. *)
Theorem describe_video_invocations (video_path : str) (st : State Ext) :
  let out := describe_video provider video_path st in
  List.length (invoked (env (snd out))) =
    (List.length (invoked (env st)) +
     match fs (env st) video_path with Returned _ => 1 | Raised _ => 0 end)%nat /\
  (forall e,
     fs (env st) video_path = Raised e ->
     invoked (env (snd out)) = invoked (env st) /\
     ext (env (snd out)) = ext (env st) /\
     built (env (snd out)) = built (env st)).
Proof.
  cbv zeta. rewrite describe_video_run. split.
  - destruct (fs (env st) video_path) as [data|e].
    + cbv zeta. destruct (fst (provider _ _ _)) as [response|e].
      * destruct (lookup_attr response "content");
          cbn [snd after_invoke env invoked]; rewrite length_app; reflexivity.
      * destruct (isinstance e "Exception");
          cbn [snd after_invoke env invoked]; rewrite length_app; reflexivity.
    + destruct (isinstance e "Exception"); cbn; lia.
  - intros e H. rewrite H.
    destruct (isinstance e "Exception"); repeat split.
Qed.

(** X6. A value other than [None] comes out of [describe_video] only as
    the content of a response: the file was read, the model call on its
    request returned, the response had that content, and no error was
    logged. *)
Theorem describe_video_value_origin
    (video_path : str) (st : State Ext) (v : pyval) :
  let out := describe_video provider video_path st in
  fst out = Returned v -> v <> PyNone ->
  exists data response,
    fs (env st) video_path = Returned data /\
    fst (provider (Chat (llm (self st))) (video_messages (payload_of data))
           (ext (env st))) = Returned response /\
    lookup_attr response "content" = Returned v /\
    log (env (snd out)) = log (env st) ++ [calling; generated].
Proof.
  cbv zeta. rewrite describe_video_run. intros H Hv.
  destruct (fs (env st) video_path) as [data|e].
  - cbv zeta in H |- *. fold (payload_of data) in H |- *.
    destruct (fst (provider _ _ _)) as [response|e] eqn:Hp.
    + destruct (lookup_attr response "content") as [content|e] eqn:Hc;
        cbn [fst] in H; injection H as <-; [|now elim Hv].
      exists data, response. repeat split; assumption.
    + destruct (isinstance e "Exception"); cbn [fst] in H;
        [injection H as <-; now elim Hv | discriminate].
  - destruct (isinstance e "Exception"); cbn [fst] in H;
      [injection H as <-; now elim Hv | discriminate].
Qed.

(** X7. [None] is not always a logged failure: when the response's content
    is [None], [describe_video] returns [None] after a successful call and
    the log holds the two INFO records only. *)
Theorem describe_video_none_without_error
    (video_path : str) (st : State Ext) (data : bytes) (response : pyval) :
  let out := describe_video provider video_path st in
  fs (env st) video_path = Returned data ->
  fst (provider (Chat (llm (self st))) (video_messages (payload_of data))
         (ext (env st))) = Returned response ->
  lookup_attr response "content" = Returned PyNone ->
  fst out = Returned PyNone /\
  log (env (snd out)) =
    log (env st) ++
    [(INFO, lit "Caling LLM...........................");
     (INFO, lit "Response Genereted from LLM")].
Proof.
  cbv zeta. intros Hf Hp Hc. rewrite describe_video_run, Hf. cbv zeta.
  fold (payload_of data). rewrite Hp, Hc. split; reflexivity.
Qed.

(** X8. An ERROR record is the mark of a caught exception: whenever
    [describe_video] adds one to the log, it returned [None], and the
    record carries the text of an instance of [Exception] that one of the
    steps raised. *)
Theorem describe_video_error_record
    (video_path : str) (st : State Ext) (added : list LogRecord) (msg : str) :
  let out := describe_video provider video_path st in
  log (env (snd out)) = log (env st) ++ added ->
  In (ERROR, msg) added ->
  fst out = Returned PyNone /\
  exists e,
    msg = lit "Error describing video: " ++ exc_str e /\
    isinstance e "Exception" = true /\
    step_raises provider video_path st e.
Proof.
  cbv zeta. rewrite describe_video_run.
  destruct (fs (env st) video_path) as [data|e] eqn:Hf.
  - cbv zeta.
    destruct (fst (provider _ _ _)) as [response|e] eqn:Hp.
    + destruct (lookup_attr response "content") as [content|e] eqn:Hc;
        cbn [fst snd after_invoke env log]; intros H Hin;
        apply app_inv_head in H; subst added.
      * destruct Hin as [E|[E|[]]]; discriminate.
      * destruct Hin as [E|[E|[E|[]]]]; try discriminate.
        injection E as <-. split; [reflexivity|]. exists e.
        split; [reflexivity|]. split; [exact (lookup_attr_raises _ _ _ Hc)|].
        eapply raises_content;
          [exact Hf | apply b64_payload_roundtrip | exact Hp | exact Hc].
    + destruct (isinstance e "Exception") eqn:Hi;
        cbn [fst snd after_invoke env log]; intros H Hin;
        apply app_inv_head in H; subst added.
      * destruct Hin as [E|[E|[]]]; try discriminate.
        injection E as <-. split; [reflexivity|]. exists e.
        split; [reflexivity|]. split; [exact Hi|].
        eapply raises_invoke;
          [exact Hf | apply b64_payload_roundtrip | exact Hp].
      * destruct Hin as [E|[]]; discriminate.
  - destruct (isinstance e "Exception") eqn:Hi;
      cbn [fst snd logged env log]; intros H Hin.
    + apply app_inv_head in H; subst added.
      destruct Hin as [E|[]]. injection E as <-.
      split; [reflexivity|]. exists e.
      split; [reflexivity|]. split; [exact Hi|]. now apply raises_read.
    + rewrite <- (app_nil_r (log (env st))) in H at 1.
      apply app_inv_head in H; subst added. destruct Hin.
Qed.

(** What one operation does to the world around the instance. *)
Lemma run_op_frame (op : Op) (st : State Ext) :
  let st' := run_op provider schema_error op st in
  (exists added,
     invoked (env st') = invoked (env st) ++ added /\
     Forall (fun c => client_of (fst c) = llm (self st)) added /\
     (List.length added <= 1)%nat) /\
  built (env st') = built (env st) /\
  fs (env st') = fs (env st) /\
  exists records, log (env st') = log (env st) ++ records.
Proof.
  assert (Hnone : forall w : World Ext,
            (exists added,
               invoked w = invoked w ++ added /\
               Forall (fun c => client_of (fst c) = llm (self st)) added /\
               (List.length added <= 1)%nat)).
  { intros w. exists []. rewrite app_nil_r. repeat split; auto. }
  assert (Hone : forall (l : list (Runnable * pyval)) r m,
            client_of r = llm (self st) ->
            (exists added,
               l ++ [(r, m)] = l ++ added /\
               Forall (fun c => client_of (fst c) = llm (self st)) added /\
               (List.length added <= 1)%nat)).
  { intros l r m Hr. exists [(r, m)]. repeat split; auto. }
  destruct op as [messages stream|messages structure|video_path| |];
    cbn [run_op]; cbv zeta.
  - rewrite call_llm_run. cbv zeta.
    destruct (fst (provider _ _ _));
      cbn [snd after_invoke env invoked built fs log];
      (split; [now apply Hone|]); repeat split; eauto.
  - rewrite call_llm_json_run. cbv zeta.
    destruct (schema_error _ _).
    + cbn [snd logged env invoked built fs log].
      split; [apply Hnone|]. repeat split; eauto.
    + destruct (fst (provider _ _ _));
        cbn [snd after_invoke env invoked built fs log];
        (split; [now apply Hone|]); repeat split; eauto.
  - rewrite describe_video_run.
    destruct (fs (env st) video_path) as [data|e].
    + cbv zeta. destruct (fst (provider _ _ _)) as [response|e].
      * destruct (lookup_attr response "content");
          cbn [snd after_invoke env invoked built fs log];
          (split; [now apply Hone|]); repeat split; eauto.
      * destruct (isinstance e "Exception");
          cbn [snd after_invoke env invoked built fs log];
          (split; [now apply Hone|]); repeat split; eauto.
    + destruct (isinstance e "Exception");
        cbn [snd logged env invoked built fs log];
        (split; [apply Hnone|]); repeat split; eauto.
      exists []. now rewrite app_nil_r.
  - cbn. split; [apply Hnone|]. repeat split. exists []. now rewrite app_nil_r.
  - cbn. split; [apply Hnone|]. repeat split. exists []. now rewrite app_nil_r.
Qed.

Lemma run_ops_cons (op : Op) (ops : list Op) (st : State Ext) :
  run_ops provider schema_error (op :: ops) st = run_ops provider schema_error ops (run_op provider schema_error op st).
Proof. reflexivity. Qed.

(** X9. Every call uses the same identity: over any sequence of
    operations, each invocation made is on the client the instance holds
    (as it is, or with a schema bound), and there is at most one invocation
    per operation. *)
Theorem every_invocation_on_held_client (ops : list Op) (st : State Ext) :
  exists added,
    invoked (env (run_ops provider schema_error ops st)) = invoked (env st) ++ added /\
    Forall (fun c => client_of (fst c) = llm (self st)) added /\
    (List.length added <= List.length ops)%nat.
Proof.
  revert st. induction ops as [|op ops IH]; intros st.
  - exists []. cbn. rewrite app_nil_r. repeat split; auto.
  - rewrite run_ops_cons.
    destruct (run_op_frame op st) as ((a1 & H1 & F1 & L1) & _).
    destruct (IH (run_op provider schema_error op st)) as (a2 & H2 & F2 & L2).
    rewrite run_op_self in F2.
    exists (a1 ++ a2). rewrite H2, H1, <- app_assoc. split; [reflexivity|].
    split; [apply Forall_app; now split|].
    rewrite length_app. cbn [List.length]. lia.
Qed.

(** X10. The client is built once: after construction and any sequence of
    operations, the only client constructed since is the one the instance
    holds; the operations leave the file system alone and only append to
    the log. *)
Theorem client_built_once
    (credential : str) (model_id : option str) (w : World Ext) (ops : list Op) :
  let st := run_ops provider schema_error ops (__init__ credential model_id w) in
  built (env st) = built w ++ [llm (self st)] /\
  fs (env st) = fs w /\
  exists records, log (env st) = log w ++ records.
Proof.
  cbv zeta.
  assert (H : forall st0 : State Ext,
            built (env (run_ops provider schema_error ops st0)) = built (env st0) /\
            fs (env (run_ops provider schema_error ops st0)) = fs (env st0) /\
            exists records,
              log (env (run_ops provider schema_error ops st0)) = log (env st0) ++ records).
  { induction ops as [|op ops IH]; intros st0.
    - repeat split. exists []. cbn. now rewrite app_nil_r.
    - rewrite run_ops_cons.
      destruct (run_op_frame op st0) as (_ & Hb & Hf & r1 & Hl).
      destruct (IH (run_op provider schema_error op st0)) as (Hb' & Hf' & r2 & Hl').
      rewrite Hb', Hf', Hl', Hb, Hf, Hl. repeat split.
      exists (r1 ++ r2). now rewrite app_assoc. }
  destruct (H (__init__ credential model_id w)) as (Hb & Hf & records & Hl).
  rewrite Hb, Hf, Hl, run_ops_self. repeat split. now exists records.
Qed.

(** X12. Plain completions compose in order: a run of [call_llm] on a
    list of message sequences invokes the held client once per sequence,
    in the order given, whatever the provider answers or raises. *)
Theorem call_llm_sequence
    (batches : list pyval) (stream : bool) (st : State Ext) :
  invoked (env (run_ops provider schema_error
                  (map (fun m => OpCallLlm m stream) batches) st)) =
    invoked (env st) ++ map (fun m => (Chat (llm (self st)), m)) batches.
Proof.
  revert st. induction batches as [|m batches IH]; intros st.
  - cbn. now rewrite app_nil_r.
  - cbn [map]. rewrite run_ops_cons, IH, run_op_self. cbn [run_op].
    destruct (call_llm_effect provider m stream st) as (_ & ->).
    rewrite <- app_assoc. reflexivity.
Qed.

Lemma str_text (st : State Ext) :
  fst (__str__ st) =
    Returned (lit "Gemini(model=" ++ model (self st) ++ lit ", api_key=" ++
              repeat mask (List.length (api_key (self st))) ++ lit ")").
Proof.
  unfold __str__, bind, get_self, ret. cbn [fst]. now rewrite str_mul_star.
Qed.

(** X11. The text representation gives the credential's length away: its
    length is 24 plus the lengths of the model identifier and of the
    credential, so two instances with the same model identifier and the
    same text hold credentials of the same length. *)
Theorem str_reveals_credential_length (st st' : State Ext) :
  (exists text,
     fst (__str__ st) = Returned text /\
     List.length text =
       (24 + List.length (model (self st)) +
        List.length (api_key (self st)))%nat) /\
  (model (self st) = model (self st') ->
   fst (__str__ st) = fst (__str__ st') ->
   List.length (api_key (self st)) = List.length (api_key (self st'))).
Proof.
  assert (L : forall m (n : nat),
            List.length (lit "Gemini(model=" ++ m ++ lit ", api_key=" ++
                         repeat mask n ++ lit ")") =
            (24 + List.length m + n)%nat).
  { intros m n. rewrite !length_app, repeat_length. cbn. lia. }
  split.
  - eexists. split; [apply str_text|]. apply L.
  - intros Hm H. rewrite !str_text in H.
    apply (f_equal (fun o => match o with
                             | Returned t => List.length t
                             | Raised _ => 0%nat
                             end)) in H.
    rewrite !L, Hm in H. lia.
Qed.

End MoreProperties.

(* ===================================================================== *)
(** ** The further statements at concrete inputs                           *)
(* ===================================================================== *)

(** [completion_logs_around_call] with an answering provider. *)
Lemma completion_logs_around_call_witness :
  (events (env (snd (call_llm Demo.answering (PyList [PyStr (lit "hi")]) true
                       Demo.gemini0))) =
     [Logged (INFO, lit "Caling LLM...........................");
      Invoked (Chat (llm (self Demo.gemini0))) (PyList [PyStr (lit "hi")]);
      Logged (INFO, lit "Response Genereted from LLM")] /\
   log (env (snd (call_llm Demo.answering (PyList [PyStr (lit "hi")]) true
                    Demo.gemini0))) =
     [(INFO, lit "Caling LLM...........................");
      (INFO, lit "Response Genereted from LLM")]) /\
  (events (env (snd (call_llm_json Demo.answering Demo.strict
                       (PyList [PyStr (lit "hi")]) (PyDict []) Demo.gemini0))) =
     [Logged (INFO, lit "Caling LLM...........................");
      Invoked (Structured (llm (self Demo.gemini0)) (PyDict []))
        (PyList [PyStr (lit "hi")]);
      Logged (INFO, lit "Response Genereted from LLM in strcutured json format")] /\
   log (env (snd (call_llm_json Demo.answering Demo.strict
                    (PyList [PyStr (lit "hi")]) (PyDict []) Demo.gemini0))) =
     [(INFO, lit "Caling LLM...........................");
      (INFO, lit "Response Genereted from LLM in strcutured json format")]).
Proof.
  pose proof (completion_logs_around_call Demo.answering Demo.strict
                (PyList [PyStr (lit "hi")]) (PyDict []) true Demo.gemini0
                (PyObject "AIMessage" [("content"%string, PyStr (lit "A cat."))]))
    as [H1 H2].
  split.
  - apply H1. reflexivity.
  - apply H2; reflexivity.
Defined.

(** [describe_video_invocations] at a missing file. *)
Lemma describe_video_invocations_witness :
  invoked (env (snd (describe_video Demo.answering (lit "nope.mp4") Demo.gemini0))) =
    [] /\
  ext (env (snd (describe_video Demo.answering (lit "nope.mp4") Demo.gemini0))) =
    0%nat /\
  built (env (snd (describe_video Demo.answering (lit "nope.mp4") Demo.gemini0))) =
    [llm (self Demo.gemini0)].
Proof.
  apply (proj2 (describe_video_invocations Demo.answering (lit "nope.mp4")
                  Demo.gemini0)
           (FileNotFoundError (lit "[Errno 2] No such file or directory"))).
  reflexivity.
Defined.

(** [describe_video_value_origin] on [clip.mp4] with an answering
    provider. *)
Lemma describe_video_value_origin_witness :
  exists data response,
    Demo.disk (lit "clip.mp4") = Returned data /\
    fst (Demo.answering (Chat (llm (self Demo.gemini0)))
           (video_messages (payload_of data)) 0%nat) = Returned response /\
    lookup_attr response "content" = Returned (PyStr (lit "A cat.")) /\
    log (env (snd (describe_video Demo.answering (lit "clip.mp4") Demo.gemini0))) =
      [calling; generated].
Proof.
  apply (describe_video_value_origin Demo.answering (lit "clip.mp4")
           Demo.gemini0 (PyStr (lit "A cat."))).
  - reflexivity.
  - discriminate.
Defined.

(** [describe_video_none_without_error] with a provider whose answer has
    no content. *)
Lemma describe_video_none_without_error_witness :
  fst (describe_video Demo.silent (lit "clip.mp4") Demo.gemini0) =
    Returned PyNone /\
  log (env (snd (describe_video Demo.silent (lit "clip.mp4") Demo.gemini0))) =
    [(INFO, lit "Caling LLM...........................");
     (INFO, lit "Response Genereted from LLM")].
Proof.
  apply (describe_video_none_without_error Demo.silent (lit "clip.mp4")
           Demo.gemini0 Demo.clip
           (PyObject "AIMessage" [("content"%string, PyNone)]));
    reflexivity.
Defined.

(** [describe_video_error_record] with a provider that answers with a bare
    string. *)
Lemma describe_video_error_record_witness :
  fst (describe_video Demo.bare (lit "clip.mp4") Demo.gemini0) =
    Returned PyNone /\
  exists e,
    lit "Error describing video: 'str' object has no attribute 'content'" =
      lit "Error describing video: " ++ exc_str e /\
    isinstance e "Exception" = true /\
    step_raises Demo.bare (lit "clip.mp4") Demo.gemini0 e.
Proof.
  apply (describe_video_error_record Demo.bare (lit "clip.mp4") Demo.gemini0
           [calling; generated;
            (ERROR,
             lit "Error describing video: 'str' object has no attribute 'content'")]).
  - reflexivity.
  - right. right. left. reflexivity.
Defined.

(** [str_reveals_credential_length] at two credentials of eleven
    characters. *)
Lemma str_reveals_credential_length_witness :
  List.length (api_key (self Demo.gemini1)) =
  List.length (api_key (self (__init__ (lit "ABCDEFGHIJK") None Demo.world0))).
Proof.
  apply (proj2 (str_reveals_credential_length Demo.gemini1
                  (__init__ (lit "ABCDEFGHIJK") None Demo.world0)));
    reflexivity.
Defined.
